(** * PageDetails: change-range resolution, change URLs, pager and page loading

    A shallow embedding of [src/components/page-details.jsx].  The React
    component is modelled as a record holding its props and state; every
    private method becomes a function of that record.  JavaScript values
    that may be [undefined]/[null] are [option]s, runtime [TypeError]s are
    an explicit outcome of the [exn] monad, and the promise callbacks of
    [_loadPage] are events of a small transition system. *)

From Stdlib Require Import Ascii String List ZArith Bool Lia.
Import ListNotations.
Open Scope string_scope.
Open Scope Z_scope.

(** ** Outcomes of evaluation: a value or a thrown [TypeError] *)

Inductive exn (A : Type) : Type :=
| Ok (a : A)
| TypeError.
Arguments Ok {A} a.
Arguments TypeError {A}.

Definition bind {A B : Type} (m : exn A) (k : A -> exn B) : exn B :=
  match m with
  | Ok a => k a
  | TypeError => TypeError
  end.

Notation "x <- m ;; k" := (bind m (fun x => k))
  (at level 61, m at next level, right associativity).

(** Property access on a value that may be [undefined] or [null]. *)
Definition deref {A : Type} (o : option A) : exn A :=
  match o with
  | Some a => Ok a
  | None => TypeError
  end.

(** Truthiness of an object reference and of a string. *)
Definition truthy {A : Type} (o : option A) : bool :=
  match o with
  | Some _ => true
  | None => false
  end.

Definition truthy_string (s : string) : bool := negb (s =? "")%string.

(** [a || b] on object references. *)
Definition or_else {A : Type} (a b : option A) : option A :=
  match a with
  | Some _ => a
  | None => b
  end.

(** ** Arrays *)

(** [Array.prototype.find] with a callback that cannot throw is
    [List.find]; this is the variant for a callback that may throw. *)
Fixpoint find_exn {A : Type} (f : A -> exn bool) (l : list A) : exn (option A) :=
  match l with
  | [] => Ok None
  | x :: l' => b <- f x ;; if (b : bool) then Ok (Some x) else find_exn f l'
  end.

(** [Array.prototype.findIndex]: the first index whose element satisfies
    the callback, [-1] when there is none. *)
Fixpoint findIndex {A : Type} (f : A -> bool) (l : list A) : Z :=
  match l with
  | [] => -1
  | x :: l' =>
      if f x then 0
      else let i := findIndex f l' in if i <? 0 then -1 else i + 1
  end.

(** Indexing [a[i]] with an integer that may be negative or past the end:
    both give [undefined]. *)
Definition at_index {A : Type} (l : list A) (i : Z) : option A :=
  if i <? 0 then None else nth_error l (Z.to_nat i).

(** ** Strings: [String.prototype.split] with a string separator *)

(** [strip_prefix p s] is [Some r] when [s = p ++ r]. *)
Fixpoint strip_prefix (p s : string) : option string :=
  match p with
  | EmptyString => Some s
  | String c p' =>
      match s with
      | EmptyString => None
      | String d s' => if Ascii.eqb c d then strip_prefix p' s' else None
      end
  end.

(** The leftmost occurrence of [sep] in [s]: what precedes it and what
    follows it. *)
Fixpoint breakOn (sep s : string) : option (string * string) :=
  match strip_prefix sep s with
  | Some rest => Some (EmptyString, rest)
  | None =>
      match s with
      | EmptyString => None
      | String c s' =>
          match breakOn sep s' with
          | Some (before, after) => Some (String c before, after)
          | None => None
          end
      end
  end.

(** Splitting proceeds from left to right over non-overlapping
    occurrences; every occurrence consumes at least one character, so
    [S (length s)] rounds are enough (see [split_from_enough]). *)
Fixpoint split_from (rounds : nat) (sep s : string) : list string :=
  match rounds with
  | O => [s]
  | S n =>
      match breakOn sep s with
      | Some (before, after) => before :: split_from n sep after
      | None => [s]
      end
  end.

Fixpoint chars (s : string) : list string :=
  match s with
  | EmptyString => []
  | String c s' => String c EmptyString :: chars s'
  end.

Definition split (sep s : string) : list string :=
  match sep with
  | EmptyString => chars s
  | _ => split_from (S (String.length s)) sep s
  end.

(** ** Data model *)

Module Version.
(** [capture_time] is the capture instant as the number that [<]
    compares (the time value of the [Date]). *)
Record t : Type := make { uuid : string; capture_time : Z }.
End Version.

Module Page.
(** [versions] is absent on pages that were listed without their
    history (the case [_loadPage] filters out with [!!page.versions]). *)
Record t : Type := make {
  uuid : string;
  title : string;
  url : string;
  versions : option (list Version.t)
}.
End Page.

(** [this.props]: the sibling pages and the two route parameters
    [match.params.pageId] and [match.params.change]. *)
Record Props : Type := {
  pages : option (list Page.t);
  pageId : string;
  change : option string
}.

(** [this.state] *)
Record State : Type := { page : option Page.t }.

Record Component : Type := { props : Props; state : State }.

(** What [_versionsToRender] returns: the object [{from, to}]. *)
Record VersionData : Type := { from : option Version.t; to : option Version.t }.

(** What [_renderChange] returns. *)
Inductive ChangeElement : Type :=
| Redirect (target : string)
| NoSavedVersions
| ChangeView (versionData : VersionData) (page : option Page.t).

(** What [_renderPager] returns: the targets of the two links. *)
Record Pager : Type := { previousUrl : string; nextUrl : string }.

(** ** The component's methods *)

(** [x === id] for a string [x] and an identifier that may be [undefined]. *)
Definition strict_eq (x : string) (id : option string) : bool :=
  match id with
  | Some y => (x =? y)%string
  | None => false
  end.

Definition truthy_id (id : option string) : bool :=
  match id with
  | Some s => truthy_string s
  | None => false
  end.

(** [const [fromId, toId] = (change || '').split('..')] *)
Definition decodeChange (change : option string) : option string * option string :=
  let token := match change with
               | Some c => c
               | None => ""
               end in
  let parts := split ".." token in
  (nth_error parts 0, nth_error parts 1).

(** The local constant [changeId] of [_getChangeUrl]: the change token. *)
Definition changeId (from to : option Version.t) : string :=
  match from, to with
  | Some f, Some t => Version.uuid f ++ ".." ++ Version.uuid t
  | _, _ => ""
  end.

Definition _getChangeUrl (this : Component)
    (from to : option Version.t) (page : option Page.t) : string :=
  let changeId := changeId from to in
  let pageId :=
    match page with
    | Some p => if truthy_string (Page.uuid p) then Page.uuid p
                else pageId (props this)
    | None => pageId (props this)
    end in
  "/page/" ++ pageId ++ "/" ++ changeId.

Definition _versionsToRender (this : Component) : exn VersionData :=
  let '(fromId, toId) := decodeChange (change (props this)) in
  page <- deref (page (state this)) ;;
  versions <- deref (Page.versions page) ;;
  let from := find (fun v => strict_eq (Version.uuid v) fromId) versions in
  let to := find (fun v => strict_eq (Version.uuid v) toId) versions in
  if negb (truthy to) || (truthy_id fromId && negb (truthy from))
  then Ok {| from := None; to := None |}
  else Ok {| from := from; to := to |}.

Definition _renderChange (this : Component) : exn ChangeElement :=
  versionData <- _versionsToRender this ;;
  if negb (truthy (from versionData) && truthy (to versionData)) then
    page <- deref (page (state this)) ;;
    versions <- deref (Page.versions page) ;;
    let to := or_else (to versionData) (at_index versions 0) in
    found <- find_exn
               (fun version =>
                  t <- deref to ;;
                  Ok (Version.capture_time version <? Version.capture_time t))
               versions ;;
    let from := or_else found to in
    if truthy from && truthy to
    then Ok (Redirect (_getChangeUrl this from to None))
    else Ok NoSavedVersions
  else Ok (ChangeView versionData (page (state this))).

(** [findIndex] with the callback of [_renderPager], which reads
    [this.state.page.uuid] each time it is called. *)
Fixpoint findIndex_exn {A : Type} (f : A -> exn bool) (l : list A) : exn Z :=
  match l with
  | [] => Ok (-1)
  | x :: l' =>
      b <- f x ;;
      if (b : bool) then Ok 0
      else i <- findIndex_exn f l' ;; Ok (if i <? 0 then -1 else i + 1)
  end.

Definition page_link (p : option Page.t) : string :=
  match p with
  | Some q => "/page/" ++ Page.uuid q
  | None => "#"
  end.

Definition _renderPager (this : Component) : exn (option Pager) :=
  match pages (props this) with
  | None => Ok None
  | Some allPages =>
      index <- findIndex_exn
                 (fun p => current <- deref (page (state this)) ;;
                           Ok (Page.uuid p =? Page.uuid current)%string)
                 allPages ;;
      let previousPage := at_index allPages (index - 1) in
      let previousUrl := page_link previousPage in
      let nextPage := if 0 <=? index then at_index allPages (index + 1) else None in
      let nextUrl := page_link nextPage in
      Ok (Some {| previousUrl := previousUrl; nextUrl := nextUrl |})
  end.

(** [this.props.history.push] / [replace] *)
Inductive HistoryAction : Type :=
| Push (target : string)
| Replace (target : string).

Definition _navigateToChange (this : Component)
    (from to : option Version.t) (page : option Page.t) (replace : bool)
    : HistoryAction :=
  let url := _getChangeUrl this from to page in
  if replace then Replace url else Push url.

(** ** Loading a page *)

(** The promise [_loadPage] builds: already fulfilled with a page found
    in [props.pages], or the pending [api.getPage(pageId)]. *)
Inductive Promise : Type :=
| Fulfilled (page : Page.t)
| GetPage (pageId : string).

Definition _loadPage (this : Component) (pageId : string) : Promise :=
  let fromList :=
    match pages (props this) with
    | Some ps =>
        find (fun p => (Page.uuid p =? pageId)%string && truthy (Page.versions p)) ps
    | None => None
    end in
  match fromList with
  | Some p => Fulfilled p
  | None => GetPage pageId
  end.

Definition setState (this : Component) (p : Page.t) : Component :=
  {| props := props this; state := {| page := Some p |} |}.

(** The component together with the promises whose [then] callback has
    not run yet, oldest first. *)
Record Mounted : Type := { component : Component; outstanding : list Promise }.

(** The constructor followed by [componentWillMount]. *)
Definition mount (p : Props) : Mounted :=
  let this := {| props := p; state := {| page := None |} |} in
  {| component := this; outstanding := [_loadPage this (pageId p)] |}.

Inductive Event : Type :=
| ReceiveProps (nextProps : Props)
| Settle (k : nat) (response : Page.t).

Fixpoint remove_nth {A : Type} (k : nat) (l : list A) : list A :=
  match k, l with
  | _, [] => []
  | O, _ :: l' => l'
  | S k', x :: l' => x :: remove_nth k' l'
  end.

(** [ReceiveProps] is [componentWillReceiveProps] followed by the update
    of [this.props].  [Settle k response] runs the [then] callback of the
    [k]-th outstanding promise; [response] is what the backend answered
    when that promise is an [api.getPage] call.  The backend answers in
    any order, so any outstanding promise may settle next; the callback
    is [this.setState({page})] and nothing else. *)
Definition step (m : Mounted) (e : Event) : Mounted :=
  let this := component m in
  match e with
  | ReceiveProps nextProps =>
      let nextPageId := pageId nextProps in
      let loads :=
        if negb (nextPageId =? pageId (props this))%string
        then [_loadPage this nextPageId] else [] in
      {| component := {| props := nextProps; state := state this |};
         outstanding := outstanding m ++ loads |}
  | Settle k response =>
      match nth_error (outstanding m) k with
      | Some (Fulfilled p) =>
          {| component := setState this p;
             outstanding := remove_nth k (outstanding m) |}
      | Some (GetPage _) =>
          {| component := setState this response;
             outstanding := remove_nth k (outstanding m) |}
      | None => m
      end
  end.

Definition run (m : Mounted) (es : list Event) : Mounted := fold_left step es m.

(** ** The whole view and annotations *)

(** What [render] returns: the loading indicator, or the page header
    (title and link) with the pager and the change below it. *)
Inductive Element : Type :=
| Loading
| PageView (title url : string) (pager : option Pager) (change : ChangeElement).

Definition render (this : Component) : exn Element :=
  match page (state this) with
  | None => Ok Loading
  | Some p =>
      pager <- _renderPager this ;;
      change <- _renderChange this ;;
      Ok (PageView (Page.title p) (Page.url p) pager change)
  end.

(** The request [_annotateChange] hands to [api.annotateChange]. *)
Record AnnotateCall (A : Type) : Type := {
  annotatedPage : string;
  fromVersion : string;
  toVersion : string;
  annotation : A
}.
Arguments annotatedPage {A} _.
Arguments fromVersion {A} _.
Arguments toVersion {A} _.
Arguments annotation {A} _.

Definition _annotateChange {A : Type} (this : Component)
    (fromVersion toVersion : string) (annotation : A) : exn (AnnotateCall A) :=
  p <- deref (page (state this)) ;;
  Ok {| annotatedPage := Page.uuid p;
        fromVersion := fromVersion;
        toVersion := toVersion;
        annotation := annotation |}.

(** ** Vocabulary of the statements *)

(** [occursb sep s]: [sep] occurs somewhere in [s]
    (see [occursb_iff]: [s = a ++ sep ++ b] for some [a], [b]). *)
Fixpoint occursb (sep s : string) : bool :=
  prefix sep s ||
  match s with
  | EmptyString => false
  | String _ s' => occursb sep s'
  end.

(** [ends_with c s]: the last character of [s] is [c]. *)
Fixpoint ends_with (c : ascii) (s : string) : bool :=
  match s with
  | EmptyString => false
  | String d EmptyString => Ascii.eqb c d
  | String _ s' => ends_with c s'
  end.

(** An identifier that survives the change token: it contains no [".."]
    and does not end with a dot.  Every RFC 4122 uuid (hexadecimal digits
    and hyphens) is one. *)
Definition plain_id (s : string) : bool :=
  negb (occursb ".." s) && negb (ends_with "." s).

(** [x] is the first element of [l], in list order, that satisfies [P]. *)
Definition first_such {A : Type} (P : A -> Prop) (l : list A) (x : A) : Prop :=
  exists l1 l2, l = (l1 ++ x :: l2)%list /\ P x /\ Forall (fun y => ~ P y) l1.

Definition older_than (t v : Version.t) : Prop :=
  Version.capture_time v < Version.capture_time t.

(** The [from] side of a corrective redirect towards [t]: the first
    version of the history captured strictly before [t], or [t] itself
    when the history has none. *)
Definition nearest_older (vs : list Version.t) (t f : Version.t) : Prop :=
  first_such (older_than t) vs f \/
  (Forall (fun v => ~ older_than t v) vs /\ f = t).

(** The component re-rendered after the router has followed a redirect
    to the change [token] of the same page. *)
Definition with_change (this : Component) (token : string) : Component :=
  {| props := {| pages := pages (props this);
                 pageId := pageId (props this);
                 change := Some token |};
     state := state this |}.

(** The token of the route parameter [change]. *)
Definition token_of (change : option string) : string :=
  match change with
  | Some c => c
  | None => ""
  end.

(** A promise taken from the list of pages carries a version history. *)
Definition has_history (pr : Promise) : Prop :=
  match pr with
  | Fulfilled q => Page.versions q <> None
  | GetPage _ => True
  end.

(** ** Strings *)

Section Strings.

Lemma length_app (a b : string) :
  String.length (a ++ b) = (String.length a + String.length b)%nat.
Proof. induction a as [|c a IH]; simpl; [reflexivity | now rewrite IH]. Qed.

Lemma strip_prefix_sound (p s r : string) :
  strip_prefix p s = Some r -> s = p ++ r.
Proof.
  revert s; induction p as [|c p IH]; intros s H; simpl in *.
  - now inversion H.
  - destruct s as [|d s]; [discriminate|].
    destruct (Ascii.eqb_spec c d) as [->|]; [|discriminate].
    now rewrite (IH _ H).
Qed.

Lemma prefix_app (p r : string) : prefix p (p ++ r) = true.
Proof.
  induction p as [|c p IH]; simpl; [now destruct r|].
  destruct (ascii_dec c c); [assumption | contradiction].
Qed.

Lemma prefix_false_strip (p s : string) :
  prefix p s = false -> strip_prefix p s = None.
Proof.
  destruct (strip_prefix p s) as [r|] eqn:E; [|reflexivity].
  apply strip_prefix_sound in E; subst s.
  now rewrite prefix_app.
Qed.

Lemma prefix_true_split (p s : string) :
  prefix p s = true -> exists r, s = p ++ r.
Proof.
  revert s; induction p as [|c p IH]; intros s H.
  - now exists s.
  - destruct s as [|d s]; simpl in H; [discriminate|].
    destruct (ascii_dec c d) as [->|]; [|discriminate].
    destruct (IH _ H) as [r ->]. now exists r.
Qed.

(** [occursb] decides the existence of an occurrence. *)
Lemma occursb_iff (sep s : string) :
  occursb sep s = true <-> exists a b, s = a ++ sep ++ b.
Proof.
  split.
  - induction s as [|c s IH]; intros H; cbn [occursb] in H;
      apply orb_true_iff in H as [H|H]; try discriminate.
    + destruct (prefix_true_split _ _ H) as [r ->]. now exists "", r.
    + destruct (prefix_true_split _ _ H) as [r ->]. now exists "", r.
    + destruct (IH H) as (a & b & ->). now exists (String c a), b.
  - intros (a & b & ->). induction a as [|c a IH].
    + cbn [append]. destruct (sep ++ b) eqn:E; cbn [occursb];
        rewrite <- E, prefix_app; reflexivity.
    + cbn [append occursb]. rewrite IH. apply orb_true_r.
Qed.

Lemma breakOn_cons (sep : string) (c : ascii) (s : string) :
  breakOn sep (String c s) =
  match strip_prefix sep (String c s) with
  | Some rest => Some ("", rest)
  | None => match breakOn sep s with
            | Some (before, after) => Some (String c before, after)
            | None => None
            end
  end.
Proof. reflexivity. Qed.

Lemma breakOn_sound (sep s before after : string) :
  breakOn sep s = Some (before, after) -> s = before ++ sep ++ after.
Proof.
  revert before; induction s as [|c s IH]; intros before; simpl.
  - destruct (strip_prefix sep "") eqn:E; [|discriminate].
    intros [= <- <-]. now apply strip_prefix_sound in E.
  - destruct (strip_prefix sep (String c s)) eqn:E.
    + intros [= <- <-]. now apply strip_prefix_sound in E.
    + destruct (breakOn sep s) as [[b a]|]; [|discriminate].
      intros [= <- <-]. simpl. now rewrite (IH b eq_refl).
Qed.

Lemma breakOn_absent (sep s : string) :
  occursb sep s = false -> breakOn sep s = None.
Proof.
  induction s as [|c s IH]; intros H; cbn [occursb] in H;
    apply orb_false_iff in H as [Hp Hs]; cbn [breakOn];
    rewrite (prefix_false_strip _ _ Hp); [reflexivity|].
  now rewrite (IH Hs).
Qed.

Lemma breakOn_shorter (sep s before after : string) :
  sep <> "" -> breakOn sep s = Some (before, after) ->
  (String.length after < String.length s)%nat.
Proof.
  intros Hsep H. apply breakOn_sound in H; subst s.
  rewrite !length_app. destruct sep; [contradiction | simpl; lia].
Qed.

(** The number of rounds given to [split_from] is enough. *)
Lemma split_from_enough (sep : string) :
  sep <> "" ->
  forall n m s, (String.length s < n)%nat -> (String.length s < m)%nat ->
                split_from n sep s = split_from m sep s.
Proof.
  intros Hsep; induction n as [|n IH]; intros m s Hn Hm; [lia|].
  destruct m as [|m]; [lia|]. simpl.
  destruct (breakOn sep s) as [[b a]|] eqn:E; [|reflexivity].
  pose proof (breakOn_shorter _ _ _ _ Hsep E).
  f_equal. apply IH; lia.
Qed.

Lemma split_from_S (n : nat) (sep s : string) :
  split_from (S n) sep s = match breakOn sep s with
                           | Some (before, after) =>
                               before :: split_from n sep after
                           | None => [s]
                           end.
Proof. reflexivity. Qed.

(** [split] cuts at the leftmost occurrence and goes on with the rest. *)
Lemma split_unfold (sep s : string) :
  sep <> "" ->
  split sep s = match breakOn sep s with
                | Some (before, after) => before :: split sep after
                | None => [s]
                end.
Proof.
  intros Hsep. unfold split. destruct sep as [|c sep]; [contradiction|].
  rewrite (split_from_S (String.length s)).
  destruct (breakOn (String c sep) s) as [[b a]|] eqn:E; [|reflexivity].
  pose proof (breakOn_shorter _ _ _ _ Hsep E).
  f_equal. apply split_from_enough; [assumption | lia | lia].
Qed.

Lemma split_absent (sep s : string) :
  sep <> "" -> occursb sep s = false -> split sep s = [s].
Proof.
  intros Hsep H. now rewrite split_unfold, (breakOn_absent _ _ H).
Qed.

Lemma dotdot_nonempty : ".." <> "".
Proof. discriminate. Qed.

(** The separator written after a plain identifier is found right
    there, not earlier. *)
Lemma breakOn_dotdot_app (a b : string) :
  plain_id a = true -> breakOn ".." (a ++ ".." ++ b) = Some (a, b).
Proof.
  unfold plain_id. rewrite andb_true_iff, !negb_true_iff.
  induction a as [|c a IH]; intros [Ho He]; [reflexivity|].
  change (String c a ++ ".." ++ b) with (String c (a ++ ".." ++ b)).
  rewrite breakOn_cons.
  assert (strip_prefix ".." (String c (a ++ ".." ++ b)) = None) as ->.
  { cbn [strip_prefix].
    destruct (Ascii.eqb_spec "."%char c) as [<-|]; [|reflexivity].
    destruct a as [|d a]; [discriminate He|].
    cbn [append].
    destruct (Ascii.eqb_spec "."%char d) as [<-|]; [|reflexivity].
    destruct a; cbn in Ho; discriminate Ho. }
  rewrite IH; [reflexivity|].
  split.
  - simpl in Ho. apply orb_false_iff in Ho. apply Ho.
  - destruct a; [reflexivity | exact He].
Qed.

Lemma split_dotdot_app (a b : string) :
  plain_id a = true -> occursb ".." b = false ->
  split ".." (a ++ ".." ++ b) = [a; b].
Proof.
  intros Ha Hb.
  rewrite (split_unfold _ _ dotdot_nonempty), (breakOn_dotdot_app _ _ Ha).
  now rewrite (split_absent _ _ dotdot_nonempty Hb).
Qed.

End Strings.

(** ** Arrays: [find] and [findIndex] *)

Section Arrays.
Context {A : Type}.

Lemma find_first_such (p : A -> bool) (l : list A) (x : A) :
  find p l = Some x -> first_such (fun y => p y = true) l x.
Proof.
  induction l as [|y l IH]; simpl; [discriminate|].
  destruct (p y) eqn:E.
  - intros [= ->]. exists [], l. repeat split; [assumption | constructor].
  - intros H. destruct (IH H) as (l1 & l2 & -> & Hx & Hl1).
    exists (y :: l1), l2. repeat split; [assumption|].
    constructor; [congruence | assumption].
Qed.

Lemma find_none_Forall (p : A -> bool) (l : list A) :
  find p l = None -> Forall (fun y => p y <> true) l.
Proof.
  induction l as [|y l IH]; simpl; [constructor|].
  destruct (p y) eqn:E; [discriminate|].
  intros H. constructor; [congruence | auto].
Qed.

Lemma find_present (p : A -> bool) (l : list A) (x : A) :
  In x l -> p x = true -> exists y, find p l = Some y /\ p y = true.
Proof.
  induction l as [|z l IH]; simpl; [contradiction|].
  intros [->|Hin] Hx.
  - rewrite Hx. now exists x.
  - destruct (p z) eqn:E; [now exists z | auto].
Qed.

(** A callback that never throws makes [find_exn] the plain [find]. *)
Lemma find_exn_pure (p : A -> bool) (l : list A) :
  find_exn (fun x => Ok (p x)) l = Ok (find p l).
Proof.
  induction l as [|y l IH]; simpl; [reflexivity|].
  destruct (p y); [reflexivity | assumption].
Qed.

Lemma findIndex_exn_pure (p : A -> bool) (l : list A) :
  findIndex_exn (fun x => Ok (p x)) l = Ok (findIndex p l).
Proof.
  induction l as [|y l IH]; simpl; [reflexivity|].
  destruct (p y); [reflexivity|]. now rewrite IH.
Qed.

(** Nothing satisfies the callback: the index is [-1]. *)
Lemma findIndex_absent (p : A -> bool) (l : list A) :
  Forall (fun y => p y <> true) l -> findIndex p l = -1.
Proof.
  induction 1 as [|y l Hy _ IH]; simpl; [reflexivity|].
  destruct (p y); [congruence|]. now rewrite IH.
Qed.

(** The first element that satisfies the callback sits at index
    [length l1] when [l1] is what precedes it. *)
Lemma findIndex_first (p : A -> bool) (l1 l2 : list A) (x : A) :
  Forall (fun y => p y <> true) l1 -> p x = true ->
  findIndex p (l1 ++ x :: l2)%list = Z.of_nat (List.length l1).
Proof.
  induction 1 as [|y l Hy _ IH]; intros Hx; simpl app.
  - simpl. now rewrite Hx.
  - cbn [findIndex]. destruct (p y); [congruence|].
    rewrite (IH Hx). cbn [List.length].
    destruct (Z.ltb_spec (Z.of_nat (List.length l)) 0); lia.
Qed.

Lemma at_index_of_nat (l : list A) (n : nat) :
  at_index l (Z.of_nat n) = nth_error l n.
Proof.
  unfold at_index. destruct (Z.ltb_spec (Z.of_nat n) 0); [lia|].
  now rewrite Nat2Z.id.
Qed.

Lemma at_index_negative (l : list A) (i : Z) : i < 0 -> at_index l i = None.
Proof.
  unfold at_index. intros H. destruct (Z.ltb_spec i 0); [reflexivity | lia].
Qed.

End Arrays.

(** ** Resolution of the change on a loaded page *)

Section Resolution.
Variable this : Component.
Variable p : Page.t.
Variable vs : list Version.t.
Hypothesis Hpage : page (state this) = Some p.
Hypothesis Hversions : Page.versions p = Some vs.

Local Abbreviation by_id id :=
  (find (fun v => strict_eq (Version.uuid v) id) vs) (only parsing).

Lemma versionsToRender_loaded (fromId toId : option string) :
  decodeChange (change (props this)) = (fromId, toId) ->
  _versionsToRender this =
  Ok (if negb (truthy (by_id toId)) ||
         (truthy_id fromId && negb (truthy (by_id fromId)))
      then {| from := None; to := None |}
      else {| from := by_id fromId; to := by_id toId |}).
Proof.
  intros Hd. unfold _versionsToRender.
  rewrite Hd, Hpage. cbn [deref bind]. rewrite Hversions. cbn [deref bind].
  now destruct (negb _ || _).
Qed.

(** With a pair that cannot be shown, [_renderChange] redirects to the
    change that ends at [versionData.to], or at the head of the history
    when that is absent. *)
Lemma renderChange_default (vd : VersionData) (t : Version.t) :
  _versionsToRender this = Ok vd ->
  truthy (from vd) && truthy (to vd) = false ->
  or_else (to vd) (nth_error vs 0) = Some t ->
  exists f,
    _renderChange this =
    Ok (Redirect ("/page/" ++ pageId (props this) ++ "/"
                  ++ Version.uuid f ++ ".." ++ Version.uuid t))
    /\ nearest_older vs t f
    /\ (In t vs -> In f vs).
Proof.
  intros Hvd Hinv Ht. unfold _renderChange.
  rewrite Hvd. cbn [bind]. rewrite Hinv. cbn [negb].
  rewrite Hpage. cbn [deref bind]. rewrite Hversions. cbn [deref bind].
  change (at_index vs 0) with (nth_error vs 0). rewrite Ht. cbn [deref bind].
  rewrite (find_exn_pure
             (fun version =>
                Version.capture_time version <? Version.capture_time t)).
  cbn [bind].
  destruct (find _ vs) as [f|] eqn:Ef; cbn [or_else truthy andb].
  - exists f. split; [reflexivity|]. split.
    + left. destruct (find_first_such _ _ _ Ef) as (l1 & l2 & E & Hf & Hl1).
      exists l1, l2. repeat split; [assumption | now apply Z.ltb_lt |].
      eapply Forall_impl; [|exact Hl1].
      intros v Hv Ho. apply Hv. now apply Z.ltb_lt.
    + intros _. now apply find_some in Ef.
  - exists t. split; [reflexivity|]. split; [|auto].
    right. split; [|reflexivity].
    eapply Forall_impl; [|exact (find_none_Forall _ _ Ef)].
    intros v Hv Ho. apply Hv. now apply Z.ltb_lt.
Qed.

Lemma renderChange_view (f t : Version.t) :
  _versionsToRender this = Ok {| from := Some f; to := Some t |} ->
  _renderChange this =
  Ok (ChangeView {| from := Some f; to := Some t |} (Some p)).
Proof.
  intros Hvd. unfold _renderChange. rewrite Hvd. cbn. now rewrite Hpage.
Qed.

(** On an empty history the search for an older version calls its
    callback on nothing, so the absent [to] is never dereferenced. *)
Lemma renderChange_no_versions :
  vs = [] -> _renderChange this = Ok NoSavedVersions.
Proof.
  intros Evs.
  destruct (decodeChange (change (props this))) as [fromId toId] eqn:Hd.
  unfold _renderChange.
  rewrite (versionsToRender_loaded _ _ Hd). rewrite Evs.
  cbn. rewrite Hpage. cbn. rewrite Hversions, Evs. reflexivity.
Qed.

(** Rendering the change of a loaded page never throws. *)
Lemma renderChange_total : exists e, _renderChange this = Ok e.
Proof.
  destruct (decodeChange (change (props this))) as [fromId toId] eqn:Hd.
  pose proof (versionsToRender_loaded _ _ Hd) as Hvd.
  destruct (negb (truthy (by_id toId)) ||
            (truthy_id fromId && negb (truthy (by_id fromId)))) eqn:Einv.
  - destruct (nth_error vs 0) as [v0|] eqn:E0.
    + destruct (renderChange_default _ v0 Hvd eq_refl) as (f & -> & _).
      * now rewrite E0.
      * now eexists.
    + rewrite renderChange_no_versions; [now eexists|].
      destruct vs; [reflexivity | discriminate].
  - apply orb_false_iff in Einv as [Eto Efrom].
    destruct (by_id toId) as [t|] eqn:Et; [|discriminate].
    destruct (by_id fromId) as [f|] eqn:Ef.
    + rewrite (renderChange_view _ _ Hvd). now eexists.
    + destruct (renderChange_default _ t Hvd eq_refl eq_refl) as (f & -> & _).
      now eexists.
Qed.

End Resolution.

(** ** The change token *)

Lemma decodeChange_absent : decodeChange None = (Some "", None).
Proof. reflexivity. Qed.

Lemma decodeChange_pair (a b : string) :
  plain_id a = true -> occursb ".." b = false ->
  decodeChange (Some (a ++ ".." ++ b)) = (Some a, Some b).
Proof.
  intros Ha Hb. unfold decodeChange. now rewrite (split_dotdot_app _ _ Ha Hb).
Qed.

(** C2, as the code has it: a token that does not contain the separator
    [".."] decodes to a [fromId] equal to the whole token and an absent
    ([undefined]) [toId]; so does the empty token, with [fromId] empty. *)
Theorem decode_without_separator (token : string) :
  occursb ".." token = false ->
  decodeChange (Some token) = (Some token, None).
Proof.
  intros H. unfold decodeChange.
  now rewrite (split_absent _ _ dotdot_nonempty H).
Qed.

Lemma decode_without_separator_witness :
  decodeChange (Some "abc") = (Some "abc", None).
Proof. apply (decode_without_separator "abc"). reflexivity. Defined.

(** C2 fails as stated: the token ["abc"] has no separator, yet it is
    decoded as the [fromId], not as the [toId]; and the empty token gives
    an absent [toId], not an empty one. *)
Lemma decode_without_separator_counterexample :
  occursb ".." "abc" = false
  /\ decodeChange (Some "abc") <> (Some "", Some "abc")
  /\ decodeChange (Some "abc") = (Some "abc", None)
  /\ decodeChange (Some "") <> (Some "", Some "")
  /\ decodeChange (Some "") = (Some "", None).
Proof. repeat split; discriminate. Qed.

(** C5, amended: for versions [a] and [b] whose uuids contain no [".."],
    the uuid of [a] not ending in a dot, decoding the encoded token of
    [(a, b)] yields exactly the two uuids. *)
Theorem decode_encode_roundtrip (a b : Version.t) :
  plain_id (Version.uuid a) = true ->
  occursb ".." (Version.uuid b) = false ->
  decodeChange (Some (changeId (Some a) (Some b)))
  = (Some (Version.uuid a), Some (Version.uuid b)).
Proof. intros Ha Hb. now apply decodeChange_pair. Qed.

Lemma decode_encode_roundtrip_witness :
  decodeChange (Some (changeId (Some (Version.make "v1" 10))
                               (Some (Version.make "v2" 20))))
  = (Some "v1", Some "v2").
Proof.
  apply (decode_encode_roundtrip (Version.make "v1" 10) (Version.make "v2" 20));
    reflexivity.
Defined.

(** C5 fails for arbitrary uuid strings: the token of a version whose
    uuid ends in a dot is cut one character early. *)
Lemma decode_encode_roundtrip_counterexample :
  let a := Version.make "a." 10 in
  let b := Version.make "b" 20 in
  changeId (Some a) (Some b) = "a...b"
  /\ decodeChange (Some (changeId (Some a) (Some b))) = (Some "a", Some ".b")
  /\ decodeChange (Some (changeId (Some a) (Some b)))
     <> (Some (Version.uuid a), Some (Version.uuid b)).
Proof. repeat split; discriminate. Qed.

(** C9: the token is ["{from.uuid}..{to.uuid}"] when both versions are
    given and empty in every other case; the URL is
    ["/page/{pageId}/{token}"], where [pageId] is the route's page
    identifier when no page is given (and the given page's uuid when it
    has a non-empty one). *)
Theorem getChangeUrl_shape (this : Component) :
  (forall f t, changeId (Some f) (Some t)
               = Version.uuid f ++ ".." ++ Version.uuid t)
  /\ (forall t, changeId None t = "")
  /\ (forall f, changeId f None = "")
  /\ (forall from to,
        _getChangeUrl this from to None
        = "/page/" ++ pageId (props this) ++ "/" ++ changeId from to)
  /\ (forall from to pg,
        _getChangeUrl this from to (Some pg)
        = "/page/"
          ++ (if (Page.uuid pg =? "")%string then pageId (props this)
              else Page.uuid pg)
          ++ "/" ++ changeId from to)
  /\ (forall from to pg replace,
        _navigateToChange this from to pg replace
        = (if replace then Replace else Push) (_getChangeUrl this from to pg)).
Proof.
  repeat split; intros.
  - now destruct f.
  - unfold _getChangeUrl, truthy_string.
    now destruct (Page.uuid pg =? "")%string.
  - unfold _navigateToChange. now destruct replace.
Qed.

(** ** Resolving the change of a page *)

Lemma find_undefined (vs : list Version.t) :
  find (fun v => strict_eq (Version.uuid v) None) vs = None.
Proof. induction vs as [|v vs IH]; [reflexivity | exact IH]. Qed.

Lemma find_empty_id (vs : list Version.t) :
  Forall (fun v => Version.uuid v <> "") vs ->
  find (fun v => strict_eq (Version.uuid v) (Some "")) vs = None.
Proof.
  induction 1 as [|v vs Hv _ IH]; [reflexivity|]. cbn [find strict_eq].
  apply String.eqb_neq in Hv. now rewrite Hv.
Qed.

Lemma find_by_uuid (vs : list Version.t) (x : Version.t) :
  In x vs ->
  exists y, find (fun v => strict_eq (Version.uuid v) (Some (Version.uuid x))) vs
            = Some y
            /\ In y vs /\ Version.uuid y = Version.uuid x.
Proof.
  intros Hin.
  destruct (find_present
              (fun v => strict_eq (Version.uuid v) (Some (Version.uuid x)))
              vs x Hin (String.eqb_refl _)) as (y & Hy & Hyx).
  exists y. split; [assumption|]. split.
  - now apply find_some in Hy.
  - now apply String.eqb_eq.
Qed.

(** C4: on a history with at least one version and an empty (or absent)
    change token, the result is a redirect whose [to] is the head of the
    history and whose [from] is the first version in list order captured
    strictly before it, or [to] itself when there is none. *)
Theorem empty_token_redirects_to_latest
    (this : Component) (p : Page.t) (v0 : Version.t) (rest : list Version.t) :
  page (state this) = Some p ->
  Page.versions p = Some (v0 :: rest) ->
  change (props this) = None \/ change (props this) = Some "" ->
  exists f,
    _renderChange this
    = Ok (Redirect (_getChangeUrl this (Some f) (Some v0) None))
    /\ nearest_older (v0 :: rest) v0 f.
Proof.
  intros Hp Hv Hc.
  assert (decodeChange (change (props this)) = (Some "", None)) as Hd
      by (destruct Hc as [-> | ->]; reflexivity).
  pose proof (versionsToRender_loaded this p _ Hp Hv _ _ Hd) as Hvd.
  rewrite find_undefined in Hvd. cbn in Hvd.
  destruct (renderChange_default this p _ Hp Hv _ v0 Hvd eq_refl eq_refl)
    as (f & Hr & Hf & _).
  exists f. split; [exact Hr | exact Hf].
Qed.

Lemma empty_token_redirects_to_latest_witness :
  let h := [Version.make "v3" 30; Version.make "v2" 20; Version.make "v1" 10] in
  let this := {| props := {| pages := None; pageId := "p"; change := Some "" |};
                 state := {| page := Some (Page.make "p" "t" "u" (Some h)) |} |} in
  exists f,
    _renderChange this
    = Ok (Redirect (_getChangeUrl this (Some f) (Some (Version.make "v3" 30)) None))
    /\ nearest_older h (Version.make "v3" 30) f.
Proof.
  intros h this.
  apply (empty_token_redirects_to_latest this
           (Page.make "p" "t" "u" (Some h)) (Version.make "v3" 30)
           [Version.make "v2" 20; Version.make "v1" 10]);
    [reflexivity | reflexivity | right; reflexivity].
Defined.

(** C6: on a loaded page whose history is the empty list, rendering the
    change evaluates without a [TypeError] to the "no saved versions"
    element; no redirect is issued. *)
Theorem empty_history_no_saved_versions (this : Component) (p : Page.t) :
  page (state this) = Some p ->
  Page.versions p = Some [] ->
  _renderChange this = Ok NoSavedVersions.
Proof.
  intros Hp Hv. now apply (renderChange_no_versions this p [] Hp Hv).
Qed.

Lemma empty_history_no_saved_versions_witness :
  _renderChange
    {| props := {| pages := None; pageId := "p"; change := Some "a..b" |};
       state := {| page := Some (Page.make "p" "t" "u" (Some [])) |} |}
  = Ok NoSavedVersions.
Proof.
  apply (empty_history_no_saved_versions _ (Page.make "p" "t" "u" (Some [])));
    reflexivity.
Defined.

(** C1, as the code has it: when [fromId] is empty and [toId] is the uuid
    of a version [t] of the history (no version having the empty uuid),
    [_versionsToRender] yields the pair with [to = t] and [from] absent,
    and [_renderChange] answers it with a redirect to the change that
    ends at [t] and starts at the nearest strictly older version
    ([t] itself when there is none). *)
Theorem missing_from_redirects_relative_to
    (this : Component) (p : Page.t) (vs : list Version.t)
    (toId : string) (t : Version.t) :
  page (state this) = Some p ->
  Page.versions p = Some vs ->
  decodeChange (change (props this)) = (Some "", Some toId) ->
  find (fun v => (Version.uuid v =? toId)%string) vs = Some t ->
  Forall (fun v => Version.uuid v <> "") vs ->
  _versionsToRender this = Ok {| from := None; to := Some t |}
  /\ exists f,
       _renderChange this
       = Ok (Redirect (_getChangeUrl this (Some f) (Some t) None))
       /\ nearest_older vs t f.
Proof.
  intros Hp Hv Hd Ht Hne.
  pose proof (versionsToRender_loaded this p _ Hp Hv _ _ Hd) as Hvd.
  change (find (fun v => strict_eq (Version.uuid v) (Some toId)) vs)
    with (find (fun v => (Version.uuid v =? toId)%string) vs) in Hvd.
  rewrite Ht, (find_empty_id _ Hne) in Hvd. cbn in Hvd.
  split; [exact Hvd|].
  destruct (renderChange_default this p _ Hp Hv _ t Hvd eq_refl eq_refl)
    as (f & Hr & Hf & _).
  exists f. split; [exact Hr | exact Hf].
Qed.

Lemma missing_from_redirects_relative_to_witness :
  let h := [Version.make "v2" 20; Version.make "v1" 10] in
  let this := {| props := {| pages := None; pageId := "p"; change := Some "..v2" |};
                 state := {| page := Some (Page.make "p" "t" "u" (Some h)) |} |} in
  _versionsToRender this = Ok {| from := None; to := Some (Version.make "v2" 20) |}
  /\ exists f,
       _renderChange this
       = Ok (Redirect (_getChangeUrl this (Some f) (Some (Version.make "v2" 20)) None))
       /\ nearest_older h (Version.make "v2" 20) f.
Proof.
  intros h this.
  apply (missing_from_redirects_relative_to this
           (Page.make "p" "t" "u" (Some h)) h "v2" (Version.make "v2" 20));
    try reflexivity.
  repeat constructor; discriminate.
Defined.

(** C1 fails as stated: with the token ["..v2"] on the history
    [v2 (t=20), v1 (t=10)] the [fromId] is empty and [toId] matches [v2],
    yet the result is a redirect to ["v1..v2"], not a displayed pair. *)
Lemma missing_from_counterexample :
  let h := [Version.make "v2" 20; Version.make "v1" 10] in
  let this := {| props := {| pages := None; pageId := "p"; change := Some "..v2" |};
                 state := {| page := Some (Page.make "p" "t" "u" (Some h)) |} |} in
  decodeChange (change (props this)) = (Some "", Some "v2")
  /\ find (fun v => (Version.uuid v =? "v2")%string) h = Some (Version.make "v2" 20)
  /\ _renderChange this = Ok (Redirect "/page/p/v1..v2")
  /\ forall vd pg, _renderChange this <> Ok (ChangeView vd pg).
Proof. repeat split; discriminate. Qed.

(** C3, as the code has it: on a non-empty history, a token whose
    [fromId] is non-empty and matches no version is answered with a
    redirect whose [to] is the most recent version (the head of the
    history), whichever version [toId] matches; its [from] is the nearest
    strictly older version, or [to] itself. *)
Theorem unknown_from_redirects_to_latest
    (this : Component) (p : Page.t) (v0 : Version.t) (rest : list Version.t)
    (fromId : string) (toId : option string) :
  page (state this) = Some p ->
  Page.versions p = Some (v0 :: rest) ->
  decodeChange (change (props this)) = (Some fromId, toId) ->
  fromId <> "" ->
  find (fun v => (Version.uuid v =? fromId)%string) (v0 :: rest) = None ->
  exists f,
    _renderChange this
    = Ok (Redirect (_getChangeUrl this (Some f) (Some v0) None))
    /\ nearest_older (v0 :: rest) v0 f.
Proof.
  intros Hp Hv Hd Hne Hfrom.
  pose proof (versionsToRender_loaded this p _ Hp Hv _ _ Hd) as Hvd.
  change (find (fun v => strict_eq (Version.uuid v) (Some fromId)) (v0 :: rest))
    with (find (fun v => (Version.uuid v =? fromId)%string) (v0 :: rest)) in Hvd.
  rewrite Hfrom in Hvd. apply String.eqb_neq in Hne.
  unfold truthy_id, truthy_string in Hvd.
  rewrite Hne, orb_true_r in Hvd.
  destruct (renderChange_default this p _ Hp Hv _ v0 Hvd eq_refl eq_refl)
    as (f & Hr & Hf & _).
  exists f. split; [exact Hr | exact Hf].
Qed.

Lemma unknown_from_redirects_to_latest_witness :
  let h := [Version.make "v3" 30; Version.make "v2" 20; Version.make "v1" 10] in
  let this := {| props := {| pages := None; pageId := "p"; change := Some "zz..v2" |};
                 state := {| page := Some (Page.make "p" "t" "u" (Some h)) |} |} in
  exists f,
    _renderChange this
    = Ok (Redirect (_getChangeUrl this (Some f) (Some (Version.make "v3" 30)) None))
    /\ nearest_older h (Version.make "v3" 30) f.
Proof.
  intros h this.
  apply (unknown_from_redirects_to_latest this
           (Page.make "p" "t" "u" (Some h)) (Version.make "v3" 30)
           [Version.make "v2" 20; Version.make "v1" 10] "zz" (Some "v2"));
    try reflexivity.
  discriminate.
Defined.

(** C3 fails as stated: on [v3 (t=30), v2 (t=20), v1 (t=10)] the token
    ["zz..v2"] has a [toId] that matches [v2] and a [fromId] that matches
    nothing; the redirect goes to ["v2..v3"], whose [to] is the most
    recent version [v3], and to no change that ends at [v2]. *)
Lemma unknown_from_counterexample :
  let h := [Version.make "v3" 30; Version.make "v2" 20; Version.make "v1" 10] in
  let this := {| props := {| pages := None; pageId := "p"; change := Some "zz..v2" |};
                 state := {| page := Some (Page.make "p" "t" "u" (Some h)) |} |} in
  decodeChange (change (props this)) = (Some "zz", Some "v2")
  /\ find (fun v => (Version.uuid v =? "v2")%string) h = Some (Version.make "v2" 20)
  /\ find (fun v => (Version.uuid v =? "zz")%string) h = None
  /\ _renderChange this = Ok (Redirect "/page/p/v2..v3")
  /\ ~ exists f,
         _renderChange this
         = Ok (Redirect (_getChangeUrl this (Some f) (Some (Version.make "v2" 20)) None)).
Proof.
  intros h this. repeat split.
  intros [f Hf].
  change (_renderChange this) with (Ok (Redirect ("/page/p/" ++ "v2..v3"))) in Hf.
  change (_getChangeUrl this (Some f) (Some (Version.make "v2" 20)) None)
    with ("/page/p/" ++ (Version.uuid f ++ "..v2")) in Hf.
  injection Hf as Hf.
  assert (String.length (Version.uuid f ++ "..v2") = 6%nat) as Hlen
      by now rewrite <- Hf.
  rewrite length_app in Hlen. cbn in Hlen.
  destruct (Version.uuid f) as [|c1 [|c2 [|c3 u]]]; cbn in Hlen; try lia.
  cbn in Hf. discriminate Hf.
Qed.

(** ** One redirect is enough *)

(** Every redirect of [_renderChange] goes to the token of two versions
    of the history. *)
Lemma redirect_within_history
    (this : Component) (p : Page.t) (vs : list Version.t) (target : string) :
  page (state this) = Some p ->
  Page.versions p = Some vs ->
  _renderChange this = Ok (Redirect target) ->
  exists f t,
    In f vs /\ In t vs
    /\ target = "/page/" ++ pageId (props this) ++ "/"
                ++ Version.uuid f ++ ".." ++ Version.uuid t.
Proof.
  intros Hp Hv Hr.
  destruct (decodeChange (change (props this))) as [fromId toId] eqn:Hd.
  pose proof (versionsToRender_loaded this p _ Hp Hv _ _ Hd) as Hvd.
  destruct (negb _ || _) eqn:Einv in Hvd.
  - destruct (nth_error vs 0) as [v0|] eqn:E0.
    + destruct (renderChange_default this p _ Hp Hv _ v0 Hvd eq_refl)
        as (f & Hf & _ & Hin); [now rewrite E0|].
      apply nth_error_In in E0.
      exists f, v0. repeat split; [auto | assumption | congruence].
    + rewrite (renderChange_no_versions this p vs Hp Hv) in Hr; [discriminate|].
      destruct vs; [reflexivity | discriminate].
  - apply orb_false_iff in Einv as [Eto _].
    destruct (find _ vs) as [t|] eqn:Et in Hvd, Eto; [|discriminate].
    destruct (find _ vs) as [f|] eqn:Ef in Hvd.
    + rewrite (renderChange_view this p Hp _ _ Hvd) in Hr. discriminate.
    + destruct (renderChange_default this p _ Hp Hv _ t Hvd eq_refl eq_refl)
        as (f & Hf & _ & Hin).
      apply find_some in Et as [Et _].
      exists f, t. repeat split; [auto | assumption | congruence].
Qed.

(** The token of two versions of the history, once it decodes to their
    uuids, is displayed and not redirected again. *)
Lemma rerender_displays
    (this : Component) (p : Page.t) (vs : list Version.t) (f t : Version.t) :
  page (state this) = Some p ->
  Page.versions p = Some vs ->
  In f vs -> In t vs ->
  plain_id (Version.uuid f) = true ->
  occursb ".." (Version.uuid t) = false ->
  exists f' t',
    _renderChange (with_change this (changeId (Some f) (Some t)))
    = Ok (ChangeView {| from := Some f'; to := Some t' |} (Some p))
    /\ In f' vs /\ In t' vs
    /\ Version.uuid f' = Version.uuid f /\ Version.uuid t' = Version.uuid t.
Proof.
  intros Hp Hv Hf Ht Hpf Hpt.
  set (this' := with_change this (changeId (Some f) (Some t))).
  assert (page (state this') = Some p) as Hp' by exact Hp.
  pose proof (versionsToRender_loaded this' p _ Hp' Hv _ _
                (decodeChange_pair _ _ Hpf Hpt)) as Hvd.
  destruct (find_by_uuid vs f Hf) as (f' & Ef & Hinf & Huf).
  destruct (find_by_uuid vs t Ht) as (t' & Et & Hint & Hut).
  rewrite Ef, Et in Hvd. cbn [truthy negb andb orb] in Hvd.
  rewrite andb_false_r in Hvd.
  exists f', t'. split; [|auto].
  exact (renderChange_view this' p Hp' _ _ Hvd).
Qed.

(** C10, amended: on a page whose versions all have plain uuids (no
    [".."] inside, no dot at the end), whenever rendering produces a
    redirect, its target is the token of two versions [f], [t] of the
    history, and rendering that token displays the versions with these
    uuids: no second redirect. *)
Theorem redirect_converges
    (this : Component) (p : Page.t) (vs : list Version.t) (target : string) :
  page (state this) = Some p ->
  Page.versions p = Some vs ->
  Forall (fun v => plain_id (Version.uuid v) = true) vs ->
  _renderChange this = Ok (Redirect target) ->
  exists f t,
    In f vs /\ In t vs
    /\ target = "/page/" ++ pageId (props this) ++ "/" ++ changeId (Some f) (Some t)
    /\ exists f' t',
         _renderChange (with_change this (changeId (Some f) (Some t)))
         = Ok (ChangeView {| from := Some f'; to := Some t' |} (Some p))
         /\ In f' vs /\ In t' vs
         /\ Version.uuid f' = Version.uuid f /\ Version.uuid t' = Version.uuid t.
Proof.
  intros Hp Hv Hplain Hr.
  destruct (redirect_within_history this p vs target Hp Hv Hr)
    as (f & t & Hf & Ht & Htarget).
  exists f, t. repeat split; try assumption.
  rewrite Forall_forall in Hplain.
  apply (rerender_displays this p vs f t Hp Hv Hf Ht (Hplain f Hf)).
  pose proof (Hplain t Ht) as Hpt. unfold plain_id in Hpt.
  apply andb_true_iff in Hpt as [Hpt _]. now apply negb_true_iff in Hpt.
Qed.

Lemma redirect_converges_witness :
  let h := [Version.make "v3" 30; Version.make "v2" 20; Version.make "v1" 10] in
  let p := Page.make "p" "t" "u" (Some h) in
  let this := {| props := {| pages := None; pageId := "p"; change := Some "v9" |};
                 state := {| page := Some p |} |} in
  exists f t,
    In f h /\ In t h
    /\ "/page/p/v2..v3" = "/page/" ++ pageId (props this) ++ "/" ++ changeId (Some f) (Some t)
    /\ exists f' t',
         _renderChange (with_change this (changeId (Some f) (Some t)))
         = Ok (ChangeView {| from := Some f'; to := Some t' |} (Some p))
         /\ In f' h /\ In t' h
         /\ Version.uuid f' = Version.uuid f /\ Version.uuid t' = Version.uuid t.
Proof.
  intros h p this.
  apply (redirect_converges this p h "/page/p/v2..v3");
    try reflexivity.
  repeat constructor.
Defined.

(** C10 fails for arbitrary uuid strings: a single version whose uuid is
    ["x."] is redirected to the token ["x...x."], which decodes to the
    identifiers ["x"] and [".x."], matches nothing, and is redirected to
    itself again. *)
Lemma redirect_converges_counterexample :
  let h := [Version.make "x." 10] in
  let this := {| props := {| pages := None; pageId := "p"; change := None |};
                 state := {| page := Some (Page.make "p" "t" "u" (Some h)) |} |} in
  _renderChange this = Ok (Redirect "/page/p/x...x.")
  /\ decodeChange (Some "x...x.") = (Some "x", Some ".x.")
  /\ _renderChange (with_change this "x...x.") = Ok (Redirect "/page/p/x...x.")
  /\ forall vd pg, _renderChange (with_change this "x...x.") <> Ok (ChangeView vd pg).
Proof. repeat split; discriminate. Qed.

(** ** The pager *)

(** C8: with a list of sibling pages, [_renderPager] never throws and
    always yields the two links.  When the current page's uuid occurs at
    index [i] (its first occurrence, which is the only one in a list of
    distinct pages), the previous link targets the page at index [i-1]
    and the next link the page at index [i+1]; where there is no such
    page (either boundary) the link is ["#"].  When the uuid does not
    occur in the list both links are ["#"]. *)
Theorem pager_links_adjacent
    (this : Component) (current : Page.t) (allPages : list Page.t) :
  page (state this) = Some current ->
  pages (props this) = Some allPages ->
  exists pager,
    _renderPager this = Ok (Some pager)
    /\ (forall i q,
          nth_error allPages i = Some q ->
          Page.uuid q = Page.uuid current ->
          (forall j r, (j < i)%nat -> nth_error allPages j = Some r ->
                       Page.uuid r <> Page.uuid current) ->
          previousUrl pager
          = match i with
            | O => "#"
            | S j => match nth_error allPages j with
                     | Some r => "/page/" ++ Page.uuid r
                     | None => "#"
                     end
            end
          /\ nextUrl pager
             = match nth_error allPages (S i) with
               | Some r => "/page/" ++ Page.uuid r
               | None => "#"
               end)
    /\ ((forall r, In r allPages -> Page.uuid r <> Page.uuid current) ->
        previousUrl pager = "#" /\ nextUrl pager = "#").
Proof.
  intros Hp Hps. unfold _renderPager. rewrite Hps, Hp. cbn [deref bind].
  rewrite (findIndex_exn_pure
             (fun q => (Page.uuid q =? Page.uuid current)%string)).
  cbn [bind]. eexists. split; [reflexivity|]. cbn [previousUrl nextUrl]. split.
  - intros i q Hq Hu Hfirst.
    destruct (nth_error_split _ _ Hq) as (l1 & l2 & E & Hlen).
    assert (findIndex (fun q => (Page.uuid q =? Page.uuid current)%string) allPages
            = Z.of_nat i) as ->.
    { rewrite E, <- Hlen. apply findIndex_first.
      - apply Forall_forall. intros r Hr.
        destruct (In_nth_error _ _ Hr) as [j Hj].
        assert (j < List.length l1)%nat as Hlt
            by (apply nth_error_Some; congruence).
        rewrite String.eqb_eq. apply (Hfirst j r); [lia|].
        rewrite E, nth_error_app1; assumption.
      - now apply String.eqb_eq. }
    assert ((0 <=? Z.of_nat i) = true) as -> by (apply Z.leb_le; lia).
    replace (Z.of_nat i + 1) with (Z.of_nat (S i)) by lia.
    rewrite at_index_of_nat. split; [|reflexivity].
    destruct i as [|j].
    + now rewrite at_index_negative by lia.
    + replace (Z.of_nat (S j) - 1) with (Z.of_nat j) by lia.
      now rewrite at_index_of_nat.
  - intros Habsent.
    rewrite findIndex_absent.
    + now rewrite at_index_negative by lia.
    + apply Forall_forall. intros r Hr. rewrite String.eqb_eq. now apply Habsent.
Qed.

Lemma pager_links_adjacent_witness :
  let A := Page.make "A" "" "" None in
  let B := Page.make "B" "" "" None in
  let C := Page.make "C" "" "" None in
  let this := {| props := {| pages := Some [A; B; C]; pageId := "B"; change := None |};
                 state := {| page := Some B |} |} in
  exists pager,
    _renderPager this = Ok (Some pager)
    /\ previousUrl pager = "/page/A" /\ nextUrl pager = "/page/C".
Proof.
  intros A B C this.
  destruct (pager_links_adjacent this B [A; B; C] eq_refl eq_refl)
    as (pager & Hr & Hat & _).
  exists pager. split; [exact Hr|].
  apply (Hat 1%nat B eq_refl eq_refl).
  intros j r Hj Hr'. destruct j as [|j]; [|lia].
  injection Hr' as <-. discriminate.
Defined.

(** ** Loads that resolve out of order *)

(** C7, as the code has it: [_loadPage] commits whatever resolves, with
    no check against the page identifier being navigated to.  After
    [loadPage(x)] followed by [loadPage(y)], both answered by the
    backend, the committed page is the response that arrives last: the
    response to the stale [x] load when that one comes after [y]'s. *)
Theorem last_resolved_load_is_committed
    (p nextProps : Props) (px py : Page.t) :
  pages p = None ->
  pageId nextProps <> pageId p ->
  let loading := step (mount p) (ReceiveProps nextProps) in
  outstanding loading = [GetPage (pageId p); GetPage (pageId nextProps)]
  /\ (let m := run loading [Settle 1 py; Settle 0 px] in
      page (state (component m)) = Some px
      /\ props (component m) = nextProps /\ outstanding m = [])
  /\ (let m := run loading [Settle 0 px; Settle 0 py] in
      page (state (component m)) = Some py
      /\ props (component m) = nextProps /\ outstanding m = []).
Proof.
  intros Hpages Hne loading. subst loading.
  apply String.eqb_neq in Hne.
  unfold run, mount, step, _loadPage. cbn. rewrite Hpages. cbn.
  rewrite Hne. cbn. repeat split.
Qed.

Lemma last_resolved_load_is_committed_witness :
  let px := Page.make "x" "X" "http://x" (Some []) in
  let py := Page.make "y" "Y" "http://y" (Some []) in
  let p := {| pages := None; pageId := "x"; change := None |} in
  let nextProps := {| pages := None; pageId := "y"; change := None |} in
  let m := run (step (mount p) (ReceiveProps nextProps)) [Settle 1 py; Settle 0 px] in
  page (state (component m)) = Some px /\ props (component m) = nextProps.
Proof.
  intros px py p nextProps m.
  destruct (last_resolved_load_is_committed p nextProps px py eq_refl)
    as (_ & (H1 & H2 & _) & _); [discriminate|].
  split; [exact H1 | exact H2].
Defined.

(** C7 fails as stated: [loadPage("x")], then [loadPage("y")] before the
    first resolves, then the answer for ["y"], then the late answer for
    ["x"]: the late answer is committed, and the component shows page
    ["x"] on the route of page ["y"]. *)
Lemma stale_load_counterexample :
  let px := Page.make "x" "X" "http://x" (Some []) in
  let py := Page.make "y" "Y" "http://y" (Some []) in
  let p := {| pages := None; pageId := "x"; change := None |} in
  let nextProps := {| pages := None; pageId := "y"; change := None |} in
  let m := run (mount p) [ReceiveProps nextProps; Settle 1 py; Settle 0 px] in
  outstanding (run (mount p) [ReceiveProps nextProps]) = [GetPage "x"; GetPage "y"]
  /\ page (state (component (run (mount p) [ReceiveProps nextProps; Settle 1 py])))
     = Some py
  /\ pageId (props (component m)) = "y"
  /\ page (state (component m)) = Some px
  /\ page (state (component m)) <> Some py.
Proof. repeat split; discriminate. Qed.

(** ** More on the change token *)

Lemma split_nonempty (sep s : string) :
  sep <> "" -> exists x l, split sep s = x :: l /\ exists rest, s = x ++ rest.
Proof.
  intros Hsep. rewrite (split_unfold _ _ Hsep).
  destruct (breakOn sep s) as [[b a]|] eqn:E.
  - exists b, (split sep a). split; [reflexivity|].
    exists (sep ++ a). now apply breakOn_sound.
  - exists s, []. split; [reflexivity|]. exists "".
    clear E. induction s as [|c s IH]; [reflexivity|]. simpl. now rewrite <- IH.
Qed.

(** Joining the pieces with the separator gives the string back:
    splitting loses nothing. *)
Lemma concat_split (sep s : string) :
  sep <> "" -> String.concat sep (split sep s) = s.
Proof.
  intros Hsep.
  assert (forall n s, (String.length s < n)%nat -> String.concat sep (split sep s) = s)
    as Hall; [|apply (Hall (S (String.length s))); lia].
  clear s. induction n as [|n IH]; intros s Hn; [lia|].
  rewrite (split_unfold _ _ Hsep).
  destruct (breakOn sep s) as [[b a]|] eqn:E; [|reflexivity].
  pose proof (breakOn_shorter _ _ _ _ Hsep E) as Hlt.
  pose proof (IH a ltac:(lia)) as IHa.
  destruct (split_nonempty sep a Hsep) as (x & l & Hx & _).
  rewrite Hx in *. cbn [String.concat]. cbn [String.concat] in IHa.
  rewrite IHa. symmetry. now apply breakOn_sound.
Qed.

(** The token is the decoded identifiers joined by [".."], followed by
    whatever further pieces the decoder ignores; in particular [fromId]
    is always a string, never [undefined], and the token starts with it. *)
Theorem decode_from_is_prefix (change : option string) :
  exists fromId rest,
    fst (decodeChange change) = Some fromId
    /\ token_of change = fromId ++ rest
    /\ (snd (decodeChange change) = None -> rest = "")
    /\ (forall toId, snd (decodeChange change) = Some toId ->
                     exists more, rest = ".." ++ toId ++ more).
Proof.
  unfold decodeChange. fold (token_of change).
  pose proof (concat_split ".." (token_of change) dotdot_nonempty) as Hjoin.
  destruct (split_nonempty ".." (token_of change) dotdot_nonempty)
    as (x & l & Hx & _).
  rewrite Hx in *. cbn [fst snd nth_error].
  destruct l as [|y l].
  - exists x, "". cbn in Hjoin. repeat split.
    + rewrite <- Hjoin at 1. clear. induction x; [reflexivity|]. simpl. now f_equal.
    + discriminate.
  - cbn [String.concat] in Hjoin. destruct l as [|z l].
    + exists x, (".." ++ y). repeat split; [now rewrite Hjoin | discriminate |].
      intros toId [= <-]. exists "". f_equal.
      clear. induction y; [reflexivity|]. simpl. now f_equal.
    + exists x, (".." ++ y ++ ".." ++ String.concat ".." (z :: l)).
      repeat split; [now rewrite Hjoin | discriminate |].
      intros toId [= <-]. now eexists.
Qed.

(** Pieces after the second are ignored: a token with three parts
    decodes like the token of its first two. *)
Theorem decode_ignores_third_piece (a b c : string) :
  plain_id a = true -> plain_id b = true ->
  decodeChange (Some (a ++ ".." ++ b ++ ".." ++ c)) = (Some a, Some b).
Proof.
  intros Ha Hb. unfold decodeChange.
  rewrite (split_unfold _ _ dotdot_nonempty), (breakOn_dotdot_app _ _ Ha).
  rewrite (split_unfold _ _ dotdot_nonempty), (breakOn_dotdot_app _ _ Hb).
  reflexivity.
Qed.

Lemma decode_ignores_third_piece_witness :
  decodeChange (Some ("v1" ++ ".." ++ "v2" ++ ".." ++ "v3")) = (Some "v1", Some "v2").
Proof. apply (decode_ignores_third_piece "v1" "v2" "v3"); reflexivity. Defined.

(** ** What each outcome of [_renderChange] means *)

Lemma find_strict_eq (vs : list Version.t) (id : option string) (x : Version.t) :
  find (fun v => strict_eq (Version.uuid v) id) vs = Some x ->
  In x vs /\ id = Some (Version.uuid x).
Proof.
  intros H. apply find_some in H as [Hin Heq]. split; [assumption|].
  destruct id as [y|]; [|discriminate]. cbn in Heq.
  apply String.eqb_eq in Heq. now subst.
Qed.


(** The three outcomes on a loaded page, with what holds in each. *)
Lemma renderChange_cases (this : Component) (p : Page.t) (vs : list Version.t) :
  page (state this) = Some p ->
  Page.versions p = Some vs ->
  (vs = [] /\ _renderChange this = Ok NoSavedVersions)
  \/ (exists f t,
        In f vs /\ In t vs /\ nearest_older vs t f
        /\ (snd (decodeChange (change (props this))) = Some (Version.uuid t)
            \/ nth_error vs 0 = Some t)
        /\ _renderChange this
           = Ok (Redirect ("/page/" ++ pageId (props this) ++ "/"
                           ++ Version.uuid f ++ ".." ++ Version.uuid t)))
  \/ (exists f t,
        In f vs /\ In t vs
        /\ decodeChange (change (props this))
           = (Some (Version.uuid f), Some (Version.uuid t))
        /\ _renderChange this
           = Ok (ChangeView {| from := Some f; to := Some t |} (Some p))).
Proof.
  intros Hp Hv.
  destruct (decodeChange (change (props this))) as [fromId toId] eqn:Hd.
  pose proof (versionsToRender_loaded this p _ Hp Hv _ _ Hd) as Hvd.
  destruct (negb _ || _) eqn:Einv in Hvd.
  - destruct (nth_error vs 0) as [v0|] eqn:E0.
    + destruct (renderChange_default this p _ Hp Hv _ v0 Hvd eq_refl)
        as (f & Hf & Hold & Hin); [now rewrite E0|].
      pose proof (nth_error_In _ _ E0) as Hin0.
      right; left. exists f, v0. repeat split; auto.
    + left. assert (vs = []) as Evs by (destruct vs; [reflexivity | discriminate]).
      split; [exact Evs|]. exact (renderChange_no_versions this p vs Hp Hv Evs).
  - apply orb_false_iff in Einv as [Eto _].
    destruct (find _ vs) as [t|] eqn:Et in Hvd, Eto; [|discriminate].
    destruct (find_strict_eq _ _ _ Et) as [Hint ->].
    destruct (find _ vs) as [f|] eqn:Ef in Hvd.
    + destruct (find_strict_eq _ _ _ Ef) as [Hinf ->].
      right; right. exists f, t. repeat split; auto.
      exact (renderChange_view this p Hp _ _ Hvd).
    + destruct (renderChange_default this p _ Hp Hv _ t Hvd eq_refl eq_refl)
        as (f & Hf & Hold & Hin).
      right; left. exists f, t. repeat split; auto.
Qed.

(** Two identifiers that both match a version are displayed as they
    are: the first version with each uuid, whatever their capture times
    (also a [from] newer than [to], or equal to it). *)
Theorem matching_pair_is_displayed
    (this : Component) (p : Page.t) (vs : list Version.t)
    (fromId toId : string) (f t : Version.t) :
  page (state this) = Some p ->
  Page.versions p = Some vs ->
  decodeChange (change (props this)) = (Some fromId, Some toId) ->
  find (fun v => (Version.uuid v =? fromId)%string) vs = Some f ->
  find (fun v => (Version.uuid v =? toId)%string) vs = Some t ->
  _renderChange this
  = Ok (ChangeView {| from := Some f; to := Some t |} (Some p)).
Proof.
  intros Hp Hv Hd Hf Ht.
  pose proof (versionsToRender_loaded this p _ Hp Hv _ _ Hd) as Hvd.
  change (find (fun v => strict_eq (Version.uuid v) (Some fromId)) vs)
    with (find (fun v => (Version.uuid v =? fromId)%string) vs) in Hvd.
  change (find (fun v => strict_eq (Version.uuid v) (Some toId)) vs)
    with (find (fun v => (Version.uuid v =? toId)%string) vs) in Hvd.
  rewrite Hf, Ht in Hvd. cbn [truthy negb orb] in Hvd.
  rewrite andb_false_r in Hvd.
  exact (renderChange_view this p Hp _ _ Hvd).
Qed.

Lemma matching_pair_is_displayed_witness :
  let h := [Version.make "v2" 20; Version.make "v1" 10] in
  let p := Page.make "p" "t" "u" (Some h) in
  let this := {| props := {| pages := None; pageId := "p"; change := Some "v2..v1" |};
                 state := {| page := Some p |} |} in
  _renderChange this
  = Ok (ChangeView {| from := Some (Version.make "v2" 20);
                      to := Some (Version.make "v1" 10) |} (Some p)).
Proof.
  intros h p this.
  apply (matching_pair_is_displayed this p h "v2" "v1"); reflexivity.
Defined.

(** A [toId] that matches no version is never displayed, whatever the
    [fromId]: the answer is the redirect to the latest change, or "no
    saved versions" on an empty history. *)
Theorem unknown_to_is_never_displayed
    (this : Component) (p : Page.t) (vs : list Version.t)
    (fromId toId : option string) :
  page (state this) = Some p ->
  Page.versions p = Some vs ->
  decodeChange (change (props this)) = (fromId, toId) ->
  find (fun v => strict_eq (Version.uuid v) toId) vs = None ->
  (vs = [] -> _renderChange this = Ok NoSavedVersions)
  /\ (forall v0 rest, vs = v0 :: rest ->
        exists f,
          _renderChange this
          = Ok (Redirect (_getChangeUrl this (Some f) (Some v0) None))
          /\ nearest_older vs v0 f).
Proof.
  intros Hp Hv Hd Hto.
  pose proof (versionsToRender_loaded this p _ Hp Hv _ _ Hd) as Hvd.
  rewrite Hto in Hvd. cbn [truthy negb orb] in Hvd. split.
  - exact (renderChange_no_versions this p vs Hp Hv).
  - intros v0 rest Evs.
    destruct (renderChange_default this p _ Hp Hv _ v0 Hvd eq_refl)
      as (f & Hr & Hf & _); [now rewrite Evs|].
    exists f. split; [exact Hr | exact Hf].
Qed.

Lemma unknown_to_is_never_displayed_witness :
  let h := [Version.make "v2" 20; Version.make "v1" 10] in
  let this := {| props := {| pages := None; pageId := "p"; change := Some "v1..v7" |};
                 state := {| page := Some (Page.make "p" "t" "u" (Some h)) |} |} in
  exists f,
    _renderChange this
    = Ok (Redirect (_getChangeUrl this (Some f) (Some (Version.make "v2" 20)) None))
    /\ nearest_older h (Version.make "v2" 20) f.
Proof.
  intros h this.
  refine (proj2 (unknown_to_is_never_displayed this
                   (Page.make "p" "t" "u" (Some h)) h (Some "v1") (Some "v7")
                   eq_refl eq_refl eq_refl eq_refl) _ _ eq_refl).
Defined.

(** "No saved versions" is shown exactly when the history is empty. *)
Theorem no_saved_versions_iff_empty
    (this : Component) (p : Page.t) (vs : list Version.t) :
  page (state this) = Some p ->
  Page.versions p = Some vs ->
  (_renderChange this = Ok NoSavedVersions <-> vs = []).
Proof.
  intros Hp Hv. split.
  - intros Hr.
    destruct (renderChange_cases this p vs Hp Hv)
      as [[Evs _] | [(f & t & _ & _ & _ & _ & E) | (f & t & _ & _ & _ & E)]];
      [assumption | rewrite E in Hr; discriminate | rewrite E in Hr; discriminate].
  - exact (renderChange_no_versions this p vs Hp Hv).
Qed.

Lemma no_saved_versions_iff_empty_witness :
  let h := [Version.make "v1" 10] in
  let this := {| props := {| pages := None; pageId := "p"; change := None |};
                 state := {| page := Some (Page.make "p" "t" "u" (Some h)) |} |} in
  _renderChange this = Ok NoSavedVersions <-> h = [].
Proof.
  intros h this.
  apply (no_saved_versions_iff_empty this (Page.make "p" "t" "u" (Some h)) h);
    reflexivity.
Defined.

(** Whatever is displayed comes from the page's own history and from
    the token: both versions are present, both belong to the history of
    the page in state, their uuids are the two decoded identifiers, and
    the page handed to the view is the page in state. *)
Theorem displayed_pair_is_the_requested_one
    (this : Component) (p : Page.t) (vs : list Version.t)
    (vd : VersionData) (pg : option Page.t) :
  page (state this) = Some p ->
  Page.versions p = Some vs ->
  _renderChange this = Ok (ChangeView vd pg) ->
  pg = Some p
  /\ exists f t,
       vd = {| from := Some f; to := Some t |}
       /\ In f vs /\ In t vs
       /\ decodeChange (change (props this))
          = (Some (Version.uuid f), Some (Version.uuid t)).
Proof.
  intros Hp Hv Hr.
  destruct (renderChange_cases this p vs Hp Hv)
    as [[_ E] | [(f & t & _ & _ & _ & _ & E) | (f & t & Hf & Ht & Hd & E)]];
    rewrite E in Hr; try discriminate.
  injection Hr as <- <-. split; [reflexivity|].
  exists f, t. repeat split; assumption.
Qed.

Lemma displayed_pair_is_the_requested_one_witness :
  let h := [Version.make "v2" 20; Version.make "v1" 10] in
  let p := Page.make "p" "t" "u" (Some h) in
  let this := {| props := {| pages := None; pageId := "p"; change := Some "v1..v2" |};
                 state := {| page := Some p |} |} in
  Some p = Some p
  /\ exists f t,
       {| from := Some (Version.make "v1" 10); to := Some (Version.make "v2" 20) |}
       = {| from := Some f; to := Some t |}
       /\ In f h /\ In t h
       /\ decodeChange (change (props this))
          = (Some (Version.uuid f), Some (Version.uuid t)).
Proof.
  intros h p this.
  apply (displayed_pair_is_the_requested_one this p h); reflexivity.
Defined.



(** [_versionsToRender] on a loaded page never throws and never returns
    a [from] without a [to]; what it returns are versions of the history
    whose uuids are the decoded identifiers. *)
Theorem versionsToRender_never_from_alone
    (this : Component) (p : Page.t) (vs : list Version.t) :
  page (state this) = Some p ->
  Page.versions p = Some vs ->
  exists vd,
    _versionsToRender this = Ok vd
    /\ (to vd = None -> from vd = None)
    /\ (forall f, from vd = Some f ->
                  In f vs
                  /\ fst (decodeChange (change (props this))) = Some (Version.uuid f))
    /\ (forall t, to vd = Some t ->
                  In t vs
                  /\ snd (decodeChange (change (props this))) = Some (Version.uuid t)).
Proof.
  intros Hp Hv.
  destruct (decodeChange (change (props this))) as [fromId toId] eqn:Hd.
  rewrite (versionsToRender_loaded this p _ Hp Hv _ _ Hd).
  destruct (negb _ || _) eqn:Einv.
  - eexists. split; [reflexivity|]. cbn. repeat split; discriminate.
  - apply orb_false_iff in Einv as [Eto _].
    eexists. split; [reflexivity|]. cbn [from to fst snd].
    split; [|split].
    + intros E. rewrite E in Eto. discriminate.
    + intros f Ef. destruct (find_strict_eq _ _ _ Ef) as [Hin ->]. now split.
    + intros t Et. destruct (find_strict_eq _ _ _ Et) as [Hin ->]. now split.
Qed.

Lemma versionsToRender_never_from_alone_witness :
  let h := [Version.make "v2" 20; Version.make "v1" 10] in
  let this := {| props := {| pages := None; pageId := "p"; change := Some "v1..zz" |};
                 state := {| page := Some (Page.make "p" "t" "u" (Some h)) |} |} in
  exists vd,
    _versionsToRender this = Ok vd
    /\ (to vd = None -> from vd = None)
    /\ (forall f, from vd = Some f ->
                  In f h
                  /\ fst (decodeChange (change (props this))) = Some (Version.uuid f))
    /\ (forall t, to vd = Some t ->
                  In t h
                  /\ snd (decodeChange (change (props this))) = Some (Version.uuid t)).
Proof.
  intros h this.
  apply (versionsToRender_never_from_alone this
           (Page.make "p" "t" "u" (Some h)) h); reflexivity.
Defined.

(** ** Choosing versions in the view *)

Lemma uuid_determines_version (vs : list Version.t) (a b : Version.t) :
  NoDup (map Version.uuid vs) ->
  In a vs -> In b vs -> Version.uuid a = Version.uuid b -> a = b.
Proof.
  induction vs as [|v vs IH]; simpl; [contradiction|].
  intros Hnd [->|Ha] [->|Hb] Hu; inversion Hnd as [|? ? Hnotin Hnd']; subst.
  - reflexivity.
  - exfalso. apply Hnotin. rewrite Hu. now apply in_map.
  - exfalso. apply Hnotin. rewrite <- Hu. now apply in_map.
  - now apply IH.
Qed.

(** What [_navigateToChange] pushes for two versions chosen from the
    history leads back to exactly these two: on a history of distinct,
    plain uuids, rendering the token of the pushed URL displays the
    chosen pair. *)
Theorem selected_versions_are_displayed
    (this : Component) (p : Page.t) (vs : list Version.t) (f t : Version.t) :
  page (state this) = Some p ->
  Page.versions p = Some vs ->
  NoDup (map Version.uuid vs) ->
  Forall (fun v => plain_id (Version.uuid v) = true) vs ->
  In f vs -> In t vs ->
  _navigateToChange this (Some f) (Some t) None false
  = Push ("/page/" ++ pageId (props this) ++ "/" ++ changeId (Some f) (Some t))
  /\ _renderChange (with_change this (changeId (Some f) (Some t)))
     = Ok (ChangeView {| from := Some f; to := Some t |} (Some p)).
Proof.
  intros Hp Hv Hnd Hplain Hf Ht. split; [reflexivity|].
  rewrite Forall_forall in Hplain.
  assert (occursb ".." (Version.uuid t) = false) as Hpt.
  { pose proof (Hplain t Ht) as H. unfold plain_id in H.
    apply andb_true_iff in H as [H _]. now apply negb_true_iff in H. }
  destruct (rerender_displays this p vs f t Hp Hv Hf Ht (Hplain f Hf) Hpt)
    as (f' & t' & Hr & Hf' & Ht' & Huf & Hut).
  rewrite (uuid_determines_version vs f' f Hnd Hf' Hf Huf) in Hr.
  rewrite (uuid_determines_version vs t' t Hnd Ht' Ht Hut) in Hr.
  exact Hr.
Qed.

Lemma selected_versions_are_displayed_witness :
  let v1 := Version.make "v1" 10 in
  let v3 := Version.make "v3" 30 in
  let h := [v3; Version.make "v2" 20; v1] in
  let p := Page.make "p" "t" "u" (Some h) in
  let this := {| props := {| pages := None; pageId := "p"; change := Some "v2..v3" |};
                 state := {| page := Some p |} |} in
  _navigateToChange this (Some v1) (Some v3) None false = Push "/page/p/v1..v3"
  /\ _renderChange (with_change this "v1..v3")
     = Ok (ChangeView {| from := Some v1; to := Some v3 |} (Some p)).
Proof.
  intros v1 v3 h p this.
  apply (selected_versions_are_displayed this p h v1 v3);
    try reflexivity.
  - repeat constructor; simpl; intuition discriminate.
  - repeat constructor.
  - simpl; auto.
  - simpl; auto.
Defined.

(** ** The whole view *)

Lemma renderPager_loaded (this : Component) (current : Page.t) :
  page (state this) = Some current ->
  _renderPager this
  = Ok (match pages (props this) with
        | None => None
        | Some allPages =>
            let index :=
              findIndex (fun q => (Page.uuid q =? Page.uuid current)%string)
                        allPages in
            Some {| previousUrl := page_link (at_index allPages (index - 1));
                    nextUrl := page_link (if 0 <=? index
                                          then at_index allPages (index + 1)
                                          else None) |}
        end).
Proof.
  intros Hp. unfold _renderPager. destruct (pages (props this)); [|reflexivity].
  rewrite Hp. cbn [deref bind].
  now rewrite (findIndex_exn_pure
                 (fun q => (Page.uuid q =? Page.uuid current)%string)).
Qed.

Lemma renderChange_without_history (this : Component) (p : Page.t) :
  page (state this) = Some p ->
  Page.versions p = None ->
  _renderChange this = TypeError.
Proof.
  intros Hp Hv. unfold _renderChange, _versionsToRender.
  destruct (decodeChange (change (props this))).
  rewrite Hp. cbn. now rewrite Hv.
Qed.

(** [render] throws exactly when the page in state carries no
    [versions] collection; with no page it shows the loading indicator,
    and a page with a history, even an empty one, always renders. *)
Theorem render_throws_iff_history_missing (this : Component) :
  render this = TypeError
  <-> exists p, page (state this) = Some p /\ Page.versions p = None.
Proof.
  unfold render. destruct (page (state this)) as [p|] eqn:Hp.
  - rewrite (renderPager_loaded this p Hp). cbn [bind].
    destruct (Page.versions p) as [vs|] eqn:Hv.
    + destruct (renderChange_total this p vs Hp Hv) as [e ->]. cbn [bind]. split.
      * discriminate.
      * intros (q & [= <-] & Hq). congruence.
    + rewrite (renderChange_without_history this p Hp Hv). cbn [bind]. split.
      * intros _. now exists p.
      * reflexivity.
  - split; [discriminate|]. intros (q & Hq & _). discriminate.
Qed.

(** Whenever the page view is on screen, the annotate callback handed
    to the change view succeeds, and it files the annotation under the
    uuid of the page whose title is shown: the page in state, also when
    the route already names another page. *)
Theorem annotation_goes_to_displayed_page
    (A : Type) (this : Component) (shownTitle shownUrl : string)
    (pager : option Pager) (shownChange : ChangeElement)
    (fromId toId : string) (note : A) :
  render this = Ok (PageView shownTitle shownUrl pager shownChange) ->
  exists p,
    page (state this) = Some p
    /\ shownTitle = Page.title p /\ shownUrl = Page.url p
    /\ _renderChange this = Ok shownChange
    /\ _annotateChange this fromId toId note
       = Ok {| annotatedPage := Page.uuid p; fromVersion := fromId;
               toVersion := toId; annotation := note |}.
Proof.
  unfold render, _annotateChange.
  destruct (page (state this)) as [p|] eqn:Hp; [|discriminate].
  rewrite (renderPager_loaded this p Hp). cbn [bind deref].
  destruct (_renderChange this) as [e|]; [|discriminate]. cbn [bind].
  intros [= <- <- _ <-]. exists p. repeat split.
Qed.

Lemma annotation_goes_to_displayed_page_witness :
  let h := [Version.make "v2" 20; Version.make "v1" 10] in
  let p := Page.make "x" "Page x" "http://x" (Some h) in
  let this := {| props := {| pages := None; pageId := "y"; change := Some "v1..v2" |};
                 state := {| page := Some p |} |} in
  exists q,
    page (state this) = Some q
    /\ "Page x" = Page.title q /\ "http://x" = Page.url q
    /\ _renderChange this
       = Ok (ChangeView {| from := Some (Version.make "v1" 10);
                           to := Some (Version.make "v2" 20) |} (Some p))
    /\ _annotateChange this "v1" "v2" true
       = Ok {| annotatedPage := Page.uuid q; fromVersion := "v1";
               toVersion := "v2"; annotation := true |}.
Proof.
  intros h p this.
  apply (annotation_goes_to_displayed_page bool this "Page x" "http://x" None).
  reflexivity.
Defined.

(** ** Sibling pages *)

Lemma findIndex_distinct (allPages : list Page.t) (i : nat) (a : Page.t) (id : string) :
  NoDup (map Page.uuid allPages) ->
  nth_error allPages i = Some a ->
  Page.uuid a = id ->
  findIndex (fun q => (Page.uuid q =? id)%string) allPages = Z.of_nat i.
Proof.
  intros Hnd Ha <-. revert i Hnd Ha.
  induction allPages as [|x l IH]; intros i Hnd Ha; [now destruct i|].
  inversion Hnd as [|? ? Hnotin Hnd']; subst.
  destruct i as [|j]; cbn in Ha; cbn [findIndex].
  - injection Ha as ->. now rewrite String.eqb_refl.
  - destruct (String.eqb_spec (Page.uuid x) (Page.uuid a)) as [E|_].
    + exfalso. apply Hnotin. rewrite E. apply in_map.
      now apply nth_error_In in Ha.
    + rewrite (IH j Hnd' Ha).
      destruct (Z.ltb_spec (Z.of_nat j) 0); lia.
Qed.

(** In a list of pages with distinct uuids the two links agree: when
    [b] follows [a] in the list, the pager shown on [a] has [b] as its
    next page and the pager shown on [b] has [a] as its previous page. *)
Theorem pager_next_and_previous_agree
    (on_a on_b : Component) (allPages : list Page.t) (i : nat)
    (a b current_a current_b : Page.t) :
  pages (props on_a) = Some allPages ->
  pages (props on_b) = Some allPages ->
  NoDup (map Page.uuid allPages) ->
  nth_error allPages i = Some a ->
  nth_error allPages (S i) = Some b ->
  page (state on_a) = Some current_a -> Page.uuid current_a = Page.uuid a ->
  page (state on_b) = Some current_b -> Page.uuid current_b = Page.uuid b ->
  exists pager_a pager_b,
    _renderPager on_a = Ok (Some pager_a)
    /\ _renderPager on_b = Ok (Some pager_b)
    /\ nextUrl pager_a = "/page/" ++ Page.uuid b
    /\ previousUrl pager_b = "/page/" ++ Page.uuid a.
Proof.
  intros Hpa Hpb Hnd Ha Hb Hsa Hua Hsb Hub.
  rewrite (renderPager_loaded on_a current_a Hsa), Hpa.
  rewrite (renderPager_loaded on_b current_b Hsb), Hpb.
  do 2 eexists. split; [reflexivity|]. split; [reflexivity|].
  cbn [nextUrl previousUrl].
  rewrite (findIndex_distinct allPages i a _ Hnd Ha (eq_sym Hua)).
  rewrite (findIndex_distinct allPages (S i) b _ Hnd Hb (eq_sym Hub)).
  assert ((0 <=? Z.of_nat i) = true) as -> by (apply Z.leb_le; lia).
  replace (Z.of_nat i + 1) with (Z.of_nat (S i)) by lia.
  replace (Z.of_nat (S i) - 1) with (Z.of_nat i) by lia.
  rewrite !at_index_of_nat, Ha, Hb. split; reflexivity.
Qed.

Lemma pager_next_and_previous_agree_witness :
  let A := Page.make "A" "" "" None in
  let B := Page.make "B" "" "" None in
  let C := Page.make "C" "" "" None in
  let B' := Page.make "B" "page B" "http://b" (Some []) in
  let on_a := {| props := {| pages := Some [A; B; C]; pageId := "A"; change := None |};
                 state := {| page := Some A |} |} in
  let on_b := {| props := {| pages := Some [A; B; C]; pageId := "B"; change := None |};
                 state := {| page := Some B' |} |} in
  exists pager_a pager_b,
    _renderPager on_a = Ok (Some pager_a)
    /\ _renderPager on_b = Ok (Some pager_b)
    /\ nextUrl pager_a = "/page/B"
    /\ previousUrl pager_b = "/page/A".
Proof.
  intros A B C B' on_a on_b.
  apply (pager_next_and_previous_agree on_a on_b [A; B; C] 0%nat A B A B');
    try reflexivity.
  repeat constructor; simpl; intuition discriminate.
Defined.

(** ** Loading: where a page is taken from *)

Lemma loadPage_from_list (this : Component) (id : string) :
  match _loadPage this id with
  | Fulfilled q =>
      Page.uuid q = id /\ Page.versions q <> None
      /\ exists ps,
           pages (props this) = Some ps
           /\ first_such (fun x => Page.uuid x = id /\ Page.versions x <> None) ps q
  | GetPage id' =>
      id' = id
      /\ forall ps q, pages (props this) = Some ps -> In q ps ->
                      Page.uuid q = id -> Page.versions q = None
  end.
Proof.
  assert (forall x : Page.t,
             (Page.uuid x =? id)%string && truthy (Page.versions x) = true
             <-> Page.uuid x = id /\ Page.versions x <> None) as Hiff.
  { intros x. rewrite andb_true_iff, String.eqb_eq.
    destruct (Page.versions x); cbn; intuition congruence. }
  unfold _loadPage. destruct (pages (props this)) as [ps|].
  - destruct (find _ ps) as [q|] eqn:E.
    + destruct (find_first_such _ _ _ E) as (l1 & l2 & El & Hq & Hl1).
      apply Hiff in Hq. destruct Hq as [Hu Hv].
      repeat split; [assumption | assumption |].
      exists ps. split; [reflexivity|]. exists l1, l2.
      repeat split; [assumption | assumption | assumption |].
      eapply Forall_impl; [|exact Hl1]. intros x Hx Hx'. apply Hx. now apply Hiff.
    + split; [reflexivity|]. intros ps' q [= <-] Hin Hu.
      pose proof (find_none _ _ E q Hin) as Hq. cbn in Hq.
      apply String.eqb_eq in Hu. rewrite Hu in Hq.
      destruct (Page.versions q); [discriminate | reflexivity].
  - split; [reflexivity|]. discriminate.
Qed.

(** [_loadPage] uses a listed page only if it has the requested uuid and
    carries its versions, and then takes the first such page; otherwise
    it asks the backend for that very identifier, which happens exactly
    when every listed page with this uuid lacks its versions (or there
    is no list). *)
Theorem loadPage_uses_list_only_with_history (this : Component) (id : string) :
  match _loadPage this id with
  | Fulfilled q =>
      Page.uuid q = id /\ Page.versions q <> None
      /\ exists ps,
           pages (props this) = Some ps
           /\ first_such (fun x => Page.uuid x = id /\ Page.versions x <> None) ps q
  | GetPage id' =>
      id' = id
      /\ forall ps q, pages (props this) = Some ps -> In q ps ->
                      Page.uuid q = id -> Page.versions q = None
  end.
Proof. exact (loadPage_from_list this id). Qed.

Lemma loadPage_has_history (this : Component) (id : string) :
  has_history (_loadPage this id).
Proof.
  pose proof (loadPage_from_list this id) as H.
  destruct (_loadPage this id); [apply H | exact I].
Qed.

(** ** Loading: what a run of events keeps true *)

Lemma remove_nth_Forall {A : Type} (P : A -> Prop) (k : nat) (l : list A) :
  Forall P l -> Forall P (remove_nth k l).
Proof.
  intros H. revert k. induction H as [|x l Hx Hl IH]; intros k.
  - destruct k; constructor.
  - destruct k; cbn; [assumption | constructor; auto].
Qed.

Lemma step_keeps_history (m : Mounted) (e : Event) :
  Forall has_history (outstanding m) ->
  Forall has_history (outstanding (step m e)).
Proof.
  intros H. destruct e as [nextProps | k response]; cbn.
  - apply Forall_app. split; [assumption|].
    destruct (negb _); [|constructor].
    constructor; [apply loadPage_has_history | constructor].
  - destruct (nth_error (outstanding m) k) as [[q|id]|]; cbn;
      [apply remove_nth_Forall | apply remove_nth_Forall |]; assumption.
Qed.

Lemma run_keeps_history (es : list Event) (m : Mounted) :
  Forall has_history (outstanding m) ->
  Forall has_history (outstanding (run m es)).
Proof.
  revert m. induction es as [|e es IH]; intros m H; [assumption|].
  apply (IH (step m e)). now apply step_keeps_history.
Qed.

Lemma step_keeps_page (m : Mounted) (e : Event) :
  page (state (component m)) <> None ->
  page (state (component (step m e))) <> None.
Proof.
  intros H. destruct e as [nextProps | k response]; cbn; [assumption|].
  destruct (nth_error (outstanding m) k) as [[q|id]|]; cbn;
    [discriminate | discriminate | assumption].
Qed.

Lemma render_loading_iff (this : Component) :
  render this = Ok Loading <-> page (state this) = None.
Proof.
  unfold render. destruct (page (state this)) as [p|] eqn:Hp.
  - rewrite (renderPager_loaded this p Hp). cbn [bind].
    destruct (_renderChange this); cbn [bind]; split; discriminate.
  - split; reflexivity.
Qed.

(** Once a page has been committed the loading indicator never comes
    back, whatever happens next: navigating to another page keeps the
    previous page on screen until some load resolves. *)
Theorem loading_indicator_never_returns (m : Mounted) (es : list Event) :
  render (component m) <> Ok Loading ->
  render (component (run m es)) <> Ok Loading.
Proof.
  rewrite !render_loading_iff. revert m.
  induction es as [|e es IH]; intros m H; [assumption|].
  apply (IH (step m e)). now apply step_keeps_page.
Qed.

Lemma loading_indicator_never_returns_witness :
  let px := Page.make "x" "X" "http://x" (Some []) in
  let m := run (mount {| pages := None; pageId := "x"; change := None |})
               [Settle 0 px] in
  render (component (run m [ReceiveProps {| pages := None; pageId := "y";
                                            change := None |}]))
  <> Ok Loading.
Proof.
  intros px m.
  apply (loading_indicator_never_returns m); discriminate.
Defined.

(** A page taken from the list of sibling pages always renders: at any
    point of any run after mounting, settling a promise that was
    fulfilled from the list commits that page, and its change renders
    without a [TypeError]. *)
Theorem page_from_list_always_renders
    (p : Props) (es : list Event) (k : nat) (q response : Page.t) :
  nth_error (outstanding (run (mount p) es)) k = Some (Fulfilled q) ->
  let m := step (run (mount p) es) (Settle k response) in
  page (state (component m)) = Some q
  /\ exists e, _renderChange (component m) = Ok e.
Proof.
  intros Hk m. subst m.
  assert (Forall has_history (outstanding (run (mount p) es))) as Hall.
  { apply run_keeps_history. cbn. constructor; [|constructor].
    apply loadPage_has_history. }
  rewrite Forall_forall in Hall.
  pose proof (Hall _ (nth_error_In _ _ Hk)) as Hq. cbn in Hq.
  cbn [step]. rewrite Hk. cbn. split; [reflexivity|].
  destruct (Page.versions q) as [vs|] eqn:Hv; [|contradiction].
  apply (renderChange_total _ q vs); [reflexivity | exact Hv].
Qed.

Lemma page_from_list_always_renders_witness :
  let full := Page.make "x" "X" "http://x" (Some [Version.make "v1" 10]) in
  let bare := Page.make "x" "X" "http://x" None in
  let p := {| pages := Some [bare; full]; pageId := "x"; change := None |} in
  let m := step (run (mount p) []) (Settle 0 bare) in
  page (state (component m)) = Some full
  /\ exists e, _renderChange (component m) = Ok e.
Proof.
  intros full bare p.
  apply (page_from_list_always_renders p [] 0%nat full bare). reflexivity.
Defined.


(** ** Change URLs tell changes apart *)

(** Two pairs of versions with plain uuids get the same change token
    only if they have the same uuids: on such a history the URL of a
    change identifies it. *)
Theorem changeId_identifies_the_pair (f t f' t' : Version.t) :
  plain_id (Version.uuid f) = true -> occursb ".." (Version.uuid t) = false ->
  plain_id (Version.uuid f') = true -> occursb ".." (Version.uuid t') = false ->
  changeId (Some f) (Some t) = changeId (Some f') (Some t') ->
  Version.uuid f = Version.uuid f' /\ Version.uuid t = Version.uuid t'.
Proof.
  intros Hf Ht Hf' Ht' E.
  apply (f_equal (fun token => decodeChange (Some token))) in E.
  cbn [changeId] in E.
  rewrite (decodeChange_pair _ _ Hf Ht), (decodeChange_pair _ _ Hf' Ht') in E.
  now injection E.
Qed.

Lemma changeId_identifies_the_pair_witness :
  Version.uuid (Version.make "v1" 10) = Version.uuid (Version.make "v1" 11)
  /\ Version.uuid (Version.make "v2" 20) = Version.uuid (Version.make "v2" 21).
Proof.
  apply (changeId_identifies_the_pair
           (Version.make "v1" 10) (Version.make "v2" 20)
           (Version.make "v1" 11) (Version.make "v2" 21)); reflexivity.
Defined.

(** With a page loaded the pager never throws; it is left out exactly
    when no list of pages is given, and an empty list still yields a
    pager, with two placeholder links. *)
Theorem pager_omitted_iff_no_list (this : Component) (current : Page.t) :
  page (state this) = Some current ->
  (_renderPager this = Ok None <-> pages (props this) = None)
  /\ (pages (props this) = Some [] ->
      _renderPager this = Ok (Some {| previousUrl := "#"; nextUrl := "#" |}))
  /\ exists pager, _renderPager this = Ok pager.
Proof.
  intros Hp. rewrite (renderPager_loaded this current Hp).
  destruct (pages (props this)) as [ps|]; repeat split;
    try discriminate; try (now eexists).
  now intros [= ->].
Qed.

Lemma pager_omitted_iff_no_list_witness :
  let this := {| props := {| pages := Some []; pageId := "p"; change := None |};
                 state := {| page := Some (Page.make "p" "t" "u" None) |} |} in
  _renderPager this = Ok (Some {| previousUrl := "#"; nextUrl := "#" |}).
Proof.
  intros this.
  apply (pager_omitted_iff_no_list this (Page.make "p" "t" "u" None) eq_refl).
  reflexivity.
Defined.
